(** * PyMiniRacer: the JavaScript-to-host callback bridge

    A shallow embedding of [src/v8_py_frontend/js_callback_maker.cc] and the
    properties of its caller registry, of the function objects it mints and
    of the entry point those functions run.

    Conventions.
    - A [uint64_t] is a [Z] in the range [0, 2^64); [next_id_++] wraps.
    - The registry's map is a [gmap Z] of callers.
    - Methods of an object are written in state-passing style; code that
      goes through the process-wide singleton runs in the monad [M] over the
      process state, whose other outcomes are a script call that ends with
      an exception pending and the abort of the process. *)

From Stdlib Require Import ZArith Lia Sorted.
From stdpp Require Import base option numbers strings list gmap fin_maps.

Set Warnings "-register-all".

Local Open Scope Z_scope.

(** ** Unsigned 64-bit integers *)

Definition UINT64_MAX : Z := 2 ^ 64 - 1.

Definition uint64 (z : Z) : Prop := 0 ≤ z ≤ UINT64_MAX.

(** Reduction modulo 2^64, the result of unsigned arithmetic. *)
Definition wrap64 (z : Z) : Z := z mod 2 ^ 64.

Global Arguments wrap64 : simpl never.
Global Arguments UINT64_MAX : simpl never.

(** ** The part of the V8 API the file uses *)

Module v8.

(** [v8::MaybeLocal<T>]: a handle that may be empty. *)
Definition MaybeLocal (A : Type) : Type := option A.

(** [v8::Local<v8::Context>]: contexts are told apart by a number. *)
Definition Context : Type := N.

(** [v8::Local<v8::Value>].  An array element is the result of reading it
    with [Array::Get]: [None] stands for a read that yields an empty
    [MaybeLocal].  A [VFunction] is a function made by [Function::New] with
    [JSCallbackMaker::OnCalledStatic] as its callback; it keeps the data
    value it was made with. *)
Inductive Value : Type :=
| VUndefined
| VNull
| VBoolean (b : bool)
| VString (s : string)
| VBigInt (z : Z)
| VArray (elements : list (MaybeLocal Value))
| VFunction (data : Value).

(** [v8::Isolate], as far as this file observes it: the context that is
    current. *)
Record Isolate : Type := {
  GetCurrentContext : Context
}.

(** [v8::FunctionCallbackInfo<v8::Value>]. *)
Record FunctionCallbackInfo : Type := {
  GetIsolate : Isolate;
  Data : Value;
  arguments : list Value
}.

(** [info.Length()]. *)
Definition Length (info : FunctionCallbackInfo) : nat :=
  length (arguments info).

(** [info[i]]: the i-th argument, undefined out of range. *)
Definition at_index (info : FunctionCallbackInfo) (i : nat) : Value :=
  default VUndefined (arguments info !! i).

Definition IsArray (v : Value) : bool :=
  match v with VArray _ => true | _ => false end.

Definition IsBigInt (v : Value) : bool :=
  match v with VBigInt _ => true | _ => false end.

Module BigInt.

(** [BigInt::NewFromUnsigned(isolate, value)]. *)
Definition NewFromUnsigned (value : Z) : Value := VBigInt value.

(** [bigint->Uint64Value(&lossless)]: the value reduced modulo 2^64 and
    whether nothing was lost. *)
Definition Uint64Value (v : Value) : Z * bool :=
  match v with
  | VBigInt z => (wrap64 z, bool_decide (uint64 z))
  | _ => (0, false)
  end.

End BigInt.

Module Array.

(** [Array::New(isolate, elements, length)]. *)
Definition New (elements : list Value) : Value :=
  VArray (Some <$> elements).

(** [array->Length()]. *)
Definition Length (v : Value) : nat :=
  match v with VArray l => length l | _ => 0%nat end.

(** [array->Get(context, index)]; a missing element reads as
    undefined. *)
Definition Get (v : Value) (index : nat) : MaybeLocal Value :=
  match v with
  | VArray l => default (Some VUndefined) (l !! index)
  | _ => Some VUndefined
  end.

(** The loop of [Array::New(context, length, next_value_callback)]: the
    callback is called [length] times, [s] being the state it captures;
    an empty result of the callback ends the loop with an empty
    result. *)
Fixpoint fill {S : Type} (length : nat)
    (next_value_callback : S → MaybeLocal Value * S) (s : S)
    : MaybeLocal (list Value) :=
  match length with
  | O => Some []
  | Datatypes.S n =>
      match next_value_callback s with
      | (None, _) => None
      | (Some v, s') =>
          match fill n next_value_callback s' with
          | None => None
          | Some vs => Some (v :: vs)
          end
      end
  end.

Definition NewFromCallback {S : Type} (length : nat)
    (next_value_callback : S → MaybeLocal Value * S) (s : S)
    : MaybeLocal Value :=
  New <$> fill length next_value_callback s.

End Array.

Module Function.

(** [Function::New(context, callback, data)].  As for [Array::New], no
    failure of V8's own is modelled: the handle it answers holds the
    function. *)
Definition New (context : Context) (data : Value) : MaybeLocal Value :=
  Some (VFunction data).

End Function.

End v8.

Import v8.

(** ** The bridge *)

Section Bridge.

(** [binary_value.h] and [callback.h] are not part of the file: the values
    handed to the host and the host's callback are parameters. *)
Context {BinaryValue Callback : Type}.

(** Modelled from the spec: the value-conversion facility
    [BinaryValueFactory] of [binary_value.h], which is not part of the
    file; its [New(context, value)] is the spec's
    [convert(context, managedValue) -> native value handle]. *)
Record BinaryValueFactory : Type := {
  New : Context → Value → BinaryValue
}.

(** The classes are declared in [js_callback_maker.h], which is not part of
    the file; the records have the members the methods use. *)
Record JSCallbackCaller : Type := {
  bv_factory_ : BinaryValueFactory;
  callback_ : Callback
}.

Record JSCallbackCallerRegistry : Type := {
  next_id_ : Z;
  callback_callers_ : gmap Z JSCallbackCaller
}.

(** The three methods below hold [mutex_] from start to end: each is one
    step on the registry. *)

(** [JSCallbackCallerRegistry::Register]. *)
Definition Register (bv_factory : BinaryValueFactory) (callback : Callback)
    (r : JSCallbackCallerRegistry) : Z * JSCallbackCallerRegistry :=
  let context_caller :=
    {| bv_factory_ := bv_factory; callback_ := callback |} in
  let callback_caller_id := next_id_ r in
  (callback_caller_id,
   {| next_id_ := wrap64 (next_id_ r + 1);
      callback_callers_ :=
        <[callback_caller_id := context_caller]> (callback_callers_ r) |}).

(** [JSCallbackCallerRegistry::Unregister]. *)
Definition Unregister (callback_caller_id : Z)
    (r : JSCallbackCallerRegistry) : JSCallbackCallerRegistry :=
  {| next_id_ := next_id_ r;
     callback_callers_ := delete callback_caller_id (callback_callers_ r) |}.

(** [JSCallbackCallerRegistry::Get(uint64_t)]. *)
Definition Get (callback_caller_id : Z) (r : JSCallbackCallerRegistry)
    : option JSCallbackCaller * JSCallbackCallerRegistry :=
  match callback_callers_ r !! callback_caller_id with
  | None => (None, r)
  | Some caller => (Some caller, r)
  end.

(** *** The process: the singleton registry and the host

    [JSCallbackCallerRegistry::singleton_] is the only registry.  What the
    host observes of the bridge is the sequence of calls of its callbacks,
    oldest first. *)

Record HostCall : Type := {
  called : Callback;
  called_callback_id : Z;
  called_args : BinaryValue
}.

Record Process : Type := {
  singleton_ : JSCallbackCallerRegistry;
  host_calls : list HostCall
}.

(** A computation either returns to its caller, with the process state it
    leaves, or ends a script call with an exception pending in the isolate,
    or aborts the process. *)
Inductive Outcome (A : Type) : Type :=
| Normal (a : A) (p : Process)
| Thrown (p : Process)
| Fatal.
Global Arguments Normal {A} a p.
Global Arguments Thrown {A} p.
Global Arguments Fatal {A}.

Definition M (A : Type) : Type := Process → Outcome A.

Global Instance M_ret : MRet M := λ A a p, Normal a p.

Global Instance M_bind : MBind M := λ A B k m p,
  match m p with
  | Normal a p' => k a p'
  | Thrown p' => Thrown p'
  | Fatal => Fatal
  end.

(** [maybe.ToLocalChecked()]: the process is aborted on an empty handle. *)
Definition ToLocalChecked {A : Type} (maybe : MaybeLocal A) : M A :=
  match maybe with
  | Some a => mret a
  | None => λ _, Fatal
  end.

(** [JSCallbackCallerRegistry::Get()->method(...)]: a method of the
    registry run on the singleton. *)
Definition on_singleton {A : Type}
    (method : JSCallbackCallerRegistry → A * JSCallbackCallerRegistry)
    : M A :=
  λ p, let '(a, r) := method (singleton_ p) in
       Normal a {| singleton_ := r; host_calls := host_calls p |}.

(** [JSCallbackCaller::DoCallback]: the arguments are converted and the
    host callback is called with them.  What the host's own code then does
    is outside this file: the call is recorded, in the order of the
    calls. *)
Definition DoCallback (caller : JSCallbackCaller) (context : Context)
    (callback_id : Z) (args : Value) : M unit :=
  λ p,
    let args_ptr := New (bv_factory_ caller) context args in
    Normal tt
      {| singleton_ := singleton_ p;
         host_calls :=
           host_calls p ++
             [ {| called := callback_ caller;
                  called_callback_id := callback_id;
                  called_args := args_ptr |} ] |}.

(** *** JSCallbackCallerHolder *)

Record JSCallbackCallerHolder : Type := {
  callback_caller_id_ : Z
}.

(** The constructor. *)
Definition JSCallbackCallerHolder_new (bv_factory : BinaryValueFactory)
    (callback : Callback) : M JSCallbackCallerHolder :=
  id ← on_singleton (Register bv_factory callback);
  mret {| callback_caller_id_ := id |}.

(** The destructor. *)
Definition JSCallbackCallerHolder_delete (holder : JSCallbackCallerHolder)
    : M unit :=
  on_singleton (λ r, (tt, Unregister (callback_caller_id_ holder) r)).

(** [JSCallbackCallerHolder::Get]. *)
Definition JSCallbackCallerHolder_Get (holder : JSCallbackCallerHolder)
    : Z :=
  callback_caller_id_ holder.

(** *** JSCallbackMaker *)

(** Modelled from the spec: the execution-context holder [ContextHolder]
    of [context_holder.h], which is not part of the file; its [get()] owns
    the execution context, which [context_holder_->Get()->Get(isolate)]
    resolves. *)
Record ContextHolder : Type := {
  context_ : Context
}.

Record JSCallbackMaker : Type := {
  context_holder_ : ContextHolder;
  maker_bv_factory_ : BinaryValueFactory;
  callback_caller_holder_ : JSCallbackCallerHolder
}.

(** The constructor: the members are built in order, the holder last. *)
Definition JSCallbackMaker_new (context_holder : ContextHolder)
    (bv_factory : BinaryValueFactory) (callback : Callback)
    : M JSCallbackMaker :=
  holder ← JSCallbackCallerHolder_new bv_factory callback;
  mret {| context_holder_ := context_holder;
          maker_bv_factory_ := bv_factory;
          callback_caller_holder_ := holder |}.

(** The (implicit) destructor: it destroys the members. *)
Definition JSCallbackMaker_delete (maker : JSCallbackMaker) : M unit :=
  JSCallbackCallerHolder_delete (callback_caller_holder_ maker).

(** The data value [MakeJSCallback] attaches to the function. *)
Definition MakeJSCallback_data (maker : JSCallbackMaker)
    (callback_id : Z) : Value :=
  let callback_caller_id_bigint :=
    BigInt.NewFromUnsigned
      (JSCallbackCallerHolder_Get (callback_caller_holder_ maker)) in
  let callback_id_bigint := BigInt.NewFromUnsigned callback_id in
  let data_elements := [callback_caller_id_bigint; callback_id_bigint] in
  Array.New data_elements.

(** The local [func] of [MakeJSCallback]. *)
Definition MakeJSCallback_func (maker : JSCallbackMaker)
    (isolate : Isolate) (callback_id : Z) : M Value :=
  let context := context_ (context_holder_ maker) in
  let data := MakeJSCallback_data maker callback_id in
  ToLocalChecked (Function.New context data).

(** [JSCallbackMaker::MakeJSCallback]. *)
Definition MakeJSCallback (maker : JSCallbackMaker) (isolate : Isolate)
    (callback_id : Z) : M BinaryValue :=
  let context := context_ (context_holder_ maker) in
  func ← MakeJSCallback_func maker isolate callback_id;
  mret (New (maker_bv_factory_ maker) context func).

(** [MakeJSCallback] called once for each callback identifier of
    [callback_ids], in order. *)
Fixpoint MakeJSCallback_each (maker : JSCallbackMaker) (isolate : Isolate)
    (callback_ids : list Z) : M (list BinaryValue) :=
  match callback_ids with
  | [] => mret []
  | callback_id :: callback_ids' =>
      v ← MakeJSCallback maker isolate callback_id;
      vs ← MakeJSCallback_each maker isolate callback_ids';
      mret (v :: vs)
  end.

(** The [return] statement at which [OnCalledStatic] ends, by the line of
    the source it stands on; the last one is the end of the body. *)
Inductive ReturnPoint : Type :=
| DataNotArray          (* line 132 *)
| DataLengthNot2        (* line 137 *)
| CallerIdEmpty         (* line 146 *)
| CallerIdNotBigInt     (* line 150 *)
| CallerIdLossy         (* line 159 *)
| CallbackIdEmpty       (* line 164 *)
| CallbackIdNotBigInt   (* line 168 *)
| CallbackIdLossy       (* line 175 *)
| CallerNotFound        (* line 187 *)
| CallbackDone.         (* line 191 *)

(** The returns taken on malformed data. *)
Definition malformed_data_return (rp : ReturnPoint) : bool :=
  match rp with
  | CallerNotFound | CallbackDone => false
  | _ => true
  end.

(** The lambda that feeds [Array::New]: [return info[idx++]]. *)
Definition next_argument (info : FunctionCallbackInfo) (idx : nat)
    : MaybeLocal Value * nat :=
  (Some (at_index info idx), S idx).

(** What [OnCalledStatic] leaves when it returns: the [return] statement
    it ended at, and whether an exception is pending in the isolate.  The
    function makes no [TryCatch] and clears nothing, so the exception that
    an element read raised (the read answered an empty handle) is still
    pending at every later return. *)
Record Returned : Type := {
  return_point : ReturnPoint;
  exception_pending : bool
}.

(** A return at [rp] with no exception pending. *)
Definition returned_at (rp : ReturnPoint) : Returned :=
  {| return_point := rp; exception_pending := false |}.

(** An empty handle: the call that answered it raised. *)
Definition IsEmpty {A : Type} (maybe : MaybeLocal A) : bool :=
  match maybe with Some _ => false | None => true end.

(** [JSCallbackMaker::OnCalledStatic].  Both elements are read (lines
    139-142) before anything is checked; [pending] records whether one of
    the two reads answered an empty handle, and every return after the
    reads carries it. *)
Definition OnCalledStatic (info : FunctionCallbackInfo) : M Returned :=
  let isolate := GetIsolate info in
  let context := GetCurrentContext isolate in
  let data_value := Data info in
  if negb (IsArray data_value)
  then mret {| return_point := DataNotArray; exception_pending := false |}
  else
  let data_array := data_value in
  if negb (Array.Length data_array =? 2)%nat
  then mret {| return_point := DataLengthNot2; exception_pending := false |}
  else
  let callback_caller_id_value_maybe := Array.Get data_array 0 in
  let callback_id_value_maybe := Array.Get data_array 1 in
  let pending :=
    IsEmpty callback_caller_id_value_maybe ||
    IsEmpty callback_id_value_maybe in
  let returning (rp : ReturnPoint) : M Returned :=
    mret {| return_point := rp; exception_pending := pending |} in
  match callback_caller_id_value_maybe with
  | None => returning CallerIdEmpty
  | Some callback_caller_id_value =>
  if negb (IsBigInt callback_caller_id_value)
  then returning CallerIdNotBigInt
  else
  let callback_caller_id_bigint := callback_caller_id_value in
  let '(callback_caller_id, lossless) :=
    BigInt.Uint64Value callback_caller_id_bigint in
  if negb lossless then returning CallerIdLossy else
  match callback_id_value_maybe with
  | None => returning CallbackIdEmpty
  | Some callback_id_value =>
  if negb (IsBigInt callback_id_value) then returning CallbackIdNotBigInt
  else
  let callback_id_bigint := callback_id_value in
  let '(callback_id, lossless) := BigInt.Uint64Value callback_id_bigint in
  if negb lossless then returning CallbackIdLossy else
  args ← ToLocalChecked
           (Array.NewFromCallback (Length info) (next_argument info) 0%nat);
  callback_caller ← on_singleton (Get callback_caller_id);
  match callback_caller with
  | None => returning CallerNotFound
  | Some caller =>
      _ ← DoCallback caller context callback_id args;
      returning CallbackDone
  end
  end
  end.

(** The process a call of the host callback of [caller] leaves. *)
Definition after_callback (p : Process) (caller : JSCallbackCaller)
    (context : Context) (callback_id : Z)
    (args : list Value) : Process :=
  {| singleton_ := singleton_ p;
     host_calls :=
       host_calls p ++
         [ {| called := callback_ caller;
              called_callback_id := callback_id;
              called_args :=
                New (bv_factory_ caller) context (Array.New args) |} ] |}.

(** The [FunctionCallbackInfo] V8 hands to the callback of [func] when
    script code calls it with [args]. *)
Definition callback_info (isolate : Isolate) (func : Value)
    (args : list Value) : FunctionCallbackInfo :=
  {| GetIsolate := isolate;
     Data := match func with VFunction data => data | _ => VUndefined end;
     arguments := args |}.

(** Script code calling [func]: V8 runs the callback.  When the callback
    returns with an exception pending, the call ends with that exception;
    otherwise it evaluates to the return value of [info], which is
    undefined unless the callback sets it, and [OnCalledStatic] never
    does. *)
Definition Call (isolate : Isolate) (func : Value) (args : list Value)
    : M Value :=
  returned ← OnCalledStatic (callback_info isolate func args);
  if exception_pending returned then Thrown else mret VUndefined.

(** *** Histories of the registry *)

(** The registry as the process starts: no caller; the header that
    initialises [next_id_] is not part of the file, so the first
    identifier is a parameter. *)
Definition JSCallbackCallerRegistry_new (first_id : Z)
    : JSCallbackCallerRegistry :=
  {| next_id_ := first_id; callback_callers_ := ∅ |}.

(** A call of one of the two mutating methods. *)
Inductive RegistryCall : Type :=
| CallRegister (bv_factory : BinaryValueFactory) (callback : Callback)
| CallUnregister (callback_caller_id : Z).

(** What a call did: the identifier [Register] returned with the caller
    it stored, or the identifier [Unregister] was given. *)
Inductive RegistryEvent : Type :=
| Registered (callback_caller_id : Z) (caller : JSCallbackCaller)
| Unregistered (callback_caller_id : Z).

Definition perform (call : RegistryCall) (r : JSCallbackCallerRegistry)
    : RegistryEvent * JSCallbackCallerRegistry :=
  match call with
  | CallRegister bv_factory callback =>
      let '(id, r') := Register bv_factory callback r in
      (Registered id {| bv_factory_ := bv_factory; callback_ := callback |},
       r')
  | CallUnregister id => (Unregistered id, Unregister id r)
  end.

Fixpoint perform_all (calls : list RegistryCall)
    (r : JSCallbackCallerRegistry)
    : list RegistryEvent * JSCallbackCallerRegistry :=
  match calls with
  | [] => ([], r)
  | call :: calls' =>
      let '(e, r1) := perform call r in
      let '(es, r2) := perform_all calls' r1 in
      (e :: es, r2)
  end.

(** The number of [Register] calls among [calls]. *)
Fixpoint registrations (calls : list RegistryCall) : nat :=
  match calls with
  | [] => 0
  | CallRegister _ _ :: calls' => S (registrations calls')
  | CallUnregister _ :: calls' => registrations calls'
  end.

(** [Register] called once for each element of [callers], in order: the
    identifiers it returned and the registry it leaves. *)
Fixpoint Register_each (callers : list (BinaryValueFactory * Callback))
    (r : JSCallbackCallerRegistry) : list Z * JSCallbackCallerRegistry :=
  match callers with
  | [] => ([], r)
  | (bv_factory, callback) :: callers' =>
      let '(id, r1) := Register bv_factory callback r in
      let '(ids, r2) := Register_each callers' r1 in
      (id :: ids, r2)
  end.

(** **** The specification's reading of a history *)

(** Identifier [i] is currently registered: some [Register] call returned
    [i] and no later [Unregister(i)] has occurred. *)
Definition currently_registered (log : list RegistryEvent) (i : Z)
    : Prop :=
  ∃ before caller after,
    log = before ++ Registered i caller :: after ∧
    Unregistered i ∉ after.

(** [caller] is the caller stored by that [Register] call: the last one
    that returned [i], with no [Unregister(i)] after it. *)
Definition stored_by_register (log : list RegistryEvent) (i : Z)
    (caller : JSCallbackCaller) : Prop :=
  ∃ before after,
    log = before ++ Registered i caller :: after ∧
    (Unregistered i ∉ after) ∧
    (∀ caller', Registered i caller' ∉ after).

(** The same reading, computed: the history replayed for [i] alone. *)
Definition replay_event (i : Z) (tracked : option JSCallbackCaller)
    (e : RegistryEvent) : option JSCallbackCaller :=
  match e with
  | Registered j caller => if decide (j = i) then Some caller else tracked
  | Unregistered j => if decide (j = i) then None else tracked
  end.

Definition replay (log : list RegistryEvent) (i : Z)
    : option JSCallbackCaller :=
  foldl (replay_event i) None log.

(** Every key of the map lies below the counter, which is in range: the
    state of a registry whose counter has not wrapped around. *)
Definition counter_ahead (r : JSCallbackCallerRegistry) : Prop :=
  uint64 (next_id_ r) ∧
  ∀ i, is_Some (callback_callers_ r !! i) → 0 ≤ i < next_id_ r.

(** **** The frame of [Register], as the specification words it

    One entry more than before, every entry that was there still there,
    the counter one higher. *)
Definition Register_frame_as_stated (bv_factory : BinaryValueFactory)
    (callback : Callback) (r : JSCallbackCallerRegistry) : Prop :=
  let r' := (Register bv_factory callback r).2 in
  size (callback_callers_ r') = S (size (callback_callers_ r)) ∧
  (∀ j caller, callback_callers_ r !! j = Some caller →
               callback_callers_ r' !! j = Some caller) ∧
  next_id_ r' = next_id_ r + 1.

(** **** The data [OnCalledStatic] gives up on *)

(** An element of the data array that is absent, is not a big-integer,
    or is a big-integer outside the unsigned 64-bit range. *)
Definition malformed_element (e : MaybeLocal Value) : Prop :=
  e = None ∨
  (∃ v, e = Some v ∧ IsBigInt v = false) ∨
  (∃ z, e = Some (VBigInt z) ∧ ¬ uint64 z).

(** The data is a 2-element array and the read of one of the two elements
    answers an empty handle. *)
Definition element_read_raises (data : Value) : bool :=
  match data with
  | VArray [e0; e1] => IsEmpty e0 || IsEmpty e1
  | _ => false
  end.

(** Data that is not exactly a 2-element array, or one of whose two
    elements is malformed. *)
Definition malformed_data (data : Value) : Prop :=
  (∀ e0 e1, data ≠ VArray [e0; e1]) ∨
  (∃ e0 e1, data = VArray [e0; e1] ∧
            (malformed_element e0 ∨ malformed_element e1)).

(** **** Further readings of a history *)

(** The identifiers the [Register] calls of a history returned, in order. *)
Fixpoint registered_ids (log : list RegistryEvent) : list Z :=
  match log with
  | [] => []
  | Registered id _ :: log' => id :: registered_ids log'
  | Unregistered _ :: log' => registered_ids log'
  end.

End Bridge.

(** ** A concrete host, for the examples

    The converted value is the pair of the context and the script value it
    was converted from; a callback is named by a number. *)

Module Sample.

Definition BinaryValue : Type := Context * Value.
Definition Callback : Type := nat.

Definition factory : @BinaryValueFactory BinaryValue :=
  {| New := λ context value, (context, value) |}.

Definition caller (callback : Callback)
    : @JSCallbackCaller BinaryValue Callback :=
  {| bv_factory_ := factory; callback_ := callback |}.

Definition registry (next_id : Z)
    (entries : list (Z * @JSCallbackCaller BinaryValue Callback))
    : @JSCallbackCallerRegistry BinaryValue Callback :=
  {| next_id_ := next_id; callback_callers_ := list_to_map entries |}.

Definition process (next_id : Z)
    (entries : list (Z * @JSCallbackCaller BinaryValue Callback))
    : @Process BinaryValue Callback :=
  {| singleton_ := registry next_id entries; host_calls := [] |}.

Definition isolate : Isolate := {| GetCurrentContext := 1%N |}.


Definition context_holder : ContextHolder := {| context_ := 1%N |}.

Definition maker (callback_caller_id : Z) : @JSCallbackMaker BinaryValue :=
  {| context_holder_ := context_holder;
     maker_bv_factory_ := factory;
     callback_caller_holder_ :=
       {| callback_caller_id_ := callback_caller_id |} |}.

End Sample.

(** ** Properties *)

Section Properties.

Context {BinaryValue Callback : Type}.

Local Abbreviation Factory := (@BinaryValueFactory BinaryValue).
Local Abbreviation Caller := (@JSCallbackCaller BinaryValue Callback).
Local Abbreviation Registry := (@JSCallbackCallerRegistry BinaryValue Callback).
Local Abbreviation Proc := (@Process BinaryValue Callback).
Local Abbreviation Event := (@RegistryEvent BinaryValue Callback).
Local Abbreviation RCall := (@RegistryCall BinaryValue Callback).
Local Abbreviation Maker := (@JSCallbackMaker BinaryValue).

Implicit Types (r : Registry) (p : Proc) (i j : Z) (caller : Caller)
  (log : list Event) (calls : list RCall) (maker : Maker).

(** *** Unsigned arithmetic *)

Lemma wrap64_uint64 (z : Z) : uint64 z → wrap64 z = z.
Proof.
  unfold uint64, UINT64_MAX, wrap64. intros Hz.
  apply Z.mod_small. lia.
Qed.

Lemma wrap64_range (z : Z) : uint64 (wrap64 z).
Proof.
  unfold uint64, UINT64_MAX, wrap64.
  pose proof (Z.mod_pos_bound z (2 ^ 64) ltac:(lia)). lia.
Qed.

Lemma wrap64_succ (z : Z) :
  0 ≤ z < UINT64_MAX → wrap64 (z + 1) = z + 1.
Proof.
  unfold UINT64_MAX. intros Hz. apply wrap64_uint64.
  unfold uint64, UINT64_MAX. lia.
Qed.

Lemma wrap64_max : wrap64 (UINT64_MAX + 1) = 0.
Proof. reflexivity. Qed.

(** *** The three methods of the registry, one call at a time *)

Lemma Get_lookup i r : (Get i r).1 = callback_callers_ r !! i.
Proof. unfold Get. by destruct (callback_callers_ r !! i). Qed.

Lemma Get_state i r : (Get i r).2 = r.
Proof. unfold Get. by destruct (callback_callers_ r !! i). Qed.

Lemma Register_id bv_factory callback r :
  (Register bv_factory callback r).1 = next_id_ r.
Proof. reflexivity. Qed.

Lemma Register_lookup bv_factory callback r j :
  callback_callers_ (Register bv_factory callback r).2 !! j =
  if decide (next_id_ r = j)
  then Some {| bv_factory_ := bv_factory; callback_ := callback |}
  else callback_callers_ r !! j.
Proof. unfold Register; simpl. apply lookup_insert. Qed.

Lemma Unregister_lookup i r j :
  callback_callers_ (Unregister i r) !! j =
  if decide (i = j) then None else callback_callers_ r !! j.
Proof. unfold Unregister; simpl. apply lookup_delete. Qed.

Lemma Unregister_id_absent i r :
  callback_callers_ r !! i = None → Unregister i r = r.
Proof.
  intros Habsent. destruct r as [n m]; unfold Unregister; simpl in *.
  f_equal. by apply delete_id.
Qed.

(** C6.  Unregistering an identifier that is absent leaves the registry as
    it was, and unregistering an identifier a second time does nothing
    more than the first time did; the destructor that makes the call
    returns normally in the unchanged process. *)
Theorem Unregister_absent r i :
  ((Get i r).1 = None → Unregister i r = r) ∧
  Unregister i (Unregister i r) = Unregister i r ∧
  (∀ p, (Get i (singleton_ p)).1 = None →
        JSCallbackCallerHolder_delete {| callback_caller_id_ := i |} p =
        Normal tt p).
Proof.
  split; [|split].
  - rewrite Get_lookup. apply Unregister_id_absent.
  - apply Unregister_id_absent. rewrite Unregister_lookup.
    by rewrite decide_True.
  - intros [r0 h]; simpl. rewrite Get_lookup. intros Habsent.
    unfold JSCallbackCallerHolder_delete, on_singleton; simpl.
    by rewrite Unregister_id_absent.
Qed.

(** *** The frame of each method *)

Lemma counter_ahead_new (first_id : Z) :
  uint64 first_id →
  counter_ahead (JSCallbackCallerRegistry_new first_id : Registry).
Proof.
  intros Hrange. split; [done|].
  intros i [caller Hi]. simpl in Hi. by rewrite lookup_empty in Hi.
Qed.

Lemma counter_ahead_Unregister i r :
  counter_ahead r → counter_ahead (Unregister i r).
Proof.
  intros [Hrange Hkeys]. split; [done|].
  intros j. rewrite Unregister_lookup. case_decide.
  - by intros [? ?].
  - apply Hkeys.
Qed.

(** Below its maximum a counter that is ahead stays ahead, and [Register]
    has the frame as stated. *)
Lemma counter_ahead_Register (bv_factory : Factory) (callback : Callback) r :
  counter_ahead r → next_id_ r < UINT64_MAX →
  counter_ahead (Register bv_factory callback r).2 ∧
  Register_frame_as_stated bv_factory callback r.
Proof.
  intros [Hrange Hkeys] Hmax. unfold uint64 in Hrange.
  assert (callback_callers_ r !! next_id_ r = None) as Hfree.
  { apply eq_None_not_Some. intros Hused%Hkeys. lia. }
  assert (wrap64 (next_id_ r + 1) = next_id_ r + 1) as Hnext
    by (apply wrap64_succ; lia).
  split; [split|split; [|split]]; simpl.
  - rewrite Hnext. unfold uint64. lia.
  - intros j. rewrite Hnext, lookup_insert. case_decide as Hj.
    + subst j. lia.
    + intros Hused%Hkeys. lia.
  - by apply map_size_insert_None.
  - intros j c Hj. rewrite lookup_insert_ne; [done|congruence].
  - done.
Qed.

(** C9, as amended.  [Unregister(i)] removes the entry of [i] and changes
    nothing else; [Get] changes nothing; [Register] stores the new caller
    under the key [next_id_], changes no entry under another key and
    advances the counter by one modulo 2^64; where the key is not in use
    and the counter is below its maximum this is the frame as stated. *)
Theorem registry_frame r i (bv_factory : Factory) (callback : Callback) :
  (callback_callers_ (Unregister i r) !! i = None ∧
   (∀ j, j ≠ i →
      callback_callers_ (Unregister i r) !! j = callback_callers_ r !! j) ∧
   next_id_ (Unregister i r) = next_id_ r) ∧
  (Get i r).2 = r ∧
  (let '(id, r') := Register bv_factory callback r in
   id = next_id_ r ∧
   callback_callers_ r' !! id =
     Some {| bv_factory_ := bv_factory; callback_ := callback |} ∧
   (∀ j, j ≠ id → callback_callers_ r' !! j = callback_callers_ r !! j) ∧
   next_id_ r' = wrap64 (next_id_ r + 1) ∧
   (callback_callers_ r !! next_id_ r = None →
    0 ≤ next_id_ r < UINT64_MAX →
    Register_frame_as_stated bv_factory callback r)).
Proof.
  split; [|split].
  - rewrite Unregister_lookup, decide_True by done.
    split; [done|]. split; [|done].
    intros j Hj. rewrite Unregister_lookup. by rewrite decide_False.
  - apply Get_state.
  - unfold Register_frame_as_stated.
    destruct (Register bv_factory callback r) as [id r'] eqn:Hreg.
    unfold Register in Hreg. injection Hreg as <- <-. simpl.
    split; [done|]. split; [apply lookup_insert_eq|].
    split; [intros j Hj; by apply lookup_insert_ne|].
    split; [done|].
    intros Hfree Hrange. split; [by apply map_size_insert_None|].
    split; [|by apply wrap64_succ].
    intros j c Hj. rewrite lookup_insert_ne; [done|]. congruence.
Qed.

(** *** Histories: lookups against the specification's reading *)

Lemma perform_all_lookup calls r i :
  callback_callers_ (perform_all calls r).2 !! i =
  foldl (replay_event i) (callback_callers_ r !! i) (perform_all calls r).1.
Proof.
  revert r. induction calls as [|call calls IH]; intros r; [done|].
  simpl. destruct (perform call r) as [e r1] eqn:He.
  specialize (IH r1).
  destruct (perform_all calls r1) as [es r2]; simpl in *.
  rewrite IH. f_equal.
  destruct call as [bv_factory callback|id]; simpl in He.
  - injection He as <- <-. simpl. apply Register_lookup.
  - injection He as <- <-. simpl. apply Unregister_lookup.
Qed.

(** Events that do not mention [i] do not move its replay. *)
Lemma replay_untouched i log (tracked : option Caller) :
  Unregistered i ∉ log → (∀ caller, Registered i caller ∉ log) →
  foldl (replay_event i) tracked log = tracked.
Proof.
  revert tracked. induction log as [|e log IH]; intros tracked Hu Hr;
    [done|].
  simpl. rewrite IH.
  - destruct e as [j c|j]; simpl; case_decide; subst; try done.
    + exfalso. apply (Hr c). left.
    + exfalso. apply Hu. left.
  - intros Hin. apply Hu. by right.
  - intros c Hin. apply (Hr c). by right.
Qed.

(** Without an [Unregister(i)] a tracked caller stays tracked. *)
Lemma replay_stays_registered i log (tracked : option Caller) :
  Unregistered i ∉ log → is_Some tracked →
  is_Some (foldl (replay_event i) tracked log).
Proof.
  revert tracked. induction log as [|e log IH]; intros tracked Hu Hs;
    [done|].
  simpl. apply IH.
  - intros Hin. apply Hu. by right.
  - destruct e as [j c|j]; simpl; case_decide; subst; try done.
    exfalso. apply Hu. left.
Qed.

Lemma replay_stored log i caller :
  replay log i = Some caller ↔ stored_by_register log i caller.
Proof.
  unfold replay, stored_by_register. split.
  - induction log as [|e log IH] using rev_ind; [done|].
    rewrite foldl_snoc.
    destruct e as [j c|j]; simpl; case_decide; subst.
    + intros [= ->]. exists log, []. split; [done|].
      split; [|intros c']; apply not_elem_of_nil.
    + intros (before & after & -> & Hu & Hr)%IH.
      exists before, (after ++ [Registered j c]).
      split; [by rewrite <- app_assoc|].
      split; [|intros c']; rewrite elem_of_app, list_elem_of_singleton.
      * intros [?|?]; [done|discriminate].
      * intros [?|?]; [by eapply Hr|]. congruence.
    + done.
    + intros (before & after & -> & Hu & Hr)%IH.
      exists before, (after ++ [Unregistered j]).
      split; [by rewrite <- app_assoc|].
      split; [|intros c']; rewrite elem_of_app, list_elem_of_singleton.
      * intros [?|?]; [done|congruence].
      * intros [?|?]; [by eapply Hr|discriminate].
  - intros (before & after & -> & Hu & Hr).
    rewrite foldl_app. simpl. rewrite decide_True by done.
    by apply replay_untouched.
Qed.

Lemma replay_registered log i :
  is_Some (replay log i) ↔ currently_registered log i.
Proof.
  split.
  - intros [caller Hc]. apply replay_stored in Hc.
    destruct Hc as (before & after & -> & Hu & _).
    by exists before, caller, after.
  - intros (before & caller & after & -> & Hu).
    unfold replay. rewrite foldl_app. simpl. rewrite decide_True by done.
    by apply replay_stays_registered.
Qed.

(** C3.  After any sequence of [Register] and [Unregister] calls on the
    registry the process starts with, [Get(i)] is present exactly when
    some [Register] call returned [i] and no later [Unregister(i)]
    occurred, and what it returns is the caller that [Register] call
    stored. *)
Theorem Get_iff_registered (first_id : Z) calls i :
  let '(log, r) :=
    perform_all calls (JSCallbackCallerRegistry_new first_id) in
  (is_Some (Get i r).1 ↔ currently_registered log i) ∧
  (∀ caller, (Get i r).1 = Some caller ↔ stored_by_register log i caller).
Proof.
  pose proof (perform_all_lookup calls
                (JSCallbackCallerRegistry_new first_id) i) as Hlookup.
  destruct (perform_all calls (JSCallbackCallerRegistry_new first_id))
    as [log r]; simpl in Hlookup.
  rewrite Get_lookup, Hlookup, lookup_empty.
  split; [apply replay_registered|].
  intros caller. apply replay_stored.
Qed.

(** *** Identifiers handed out by [Register] *)

Lemma Register_each_cons (bv_factory : Factory) (callback : Callback)
    (callers : list (Factory * Callback)) r :
  (Register_each ((bv_factory, callback) :: callers) r).1 =
  next_id_ r :: (Register_each callers (Register bv_factory callback r).2).1.
Proof. simpl. by destruct (Register_each callers _). Qed.

Lemma Register_each_ids (callers : list (Factory * Callback)) r :
  uint64 (next_id_ r) →
  next_id_ r + Z.of_nat (length callers) ≤ UINT64_MAX + 1 →
  (Register_each callers r).1 =
  seqZ (next_id_ r) (Z.of_nat (length callers)).
Proof.
  revert r. induction callers as [|[bv_factory callback] callers IH];
    intros r Hrange Hroom; [done|].
  rewrite Register_each_cons, seqZ_cons by (simpl; lia).
  f_equal.
  destruct callers as [|next callers]; [done|].
  remember (next :: callers) as rest eqn:Hrest.
  assert (1 ≤ Z.of_nat (length rest)) by (subst rest; simpl; lia).
  change (length ((bv_factory, callback) :: rest))
    with (S (length rest)) in Hroom.
  clear Hrest.
  assert (Hnext : wrap64 (next_id_ r + 1) = next_id_ r + 1).
  { apply wrap64_succ. unfold uint64 in Hrange. lia. }
  rewrite IH; simpl; rewrite Hnext.
  - f_equal; lia.
  - unfold uint64 in *. lia.
  - lia.
Qed.

Lemma seqZ_StronglySorted (m : Z) (n : nat) :
  StronglySorted Z.lt (seqZ m (Z.of_nat n)).
Proof.
  revert m. induction n as [|n IH]; intros m.
  - rewrite seqZ_nil by lia. constructor.
  - rewrite seqZ_cons by lia.
    replace (Z.pred (Z.of_nat (S n))) with (Z.of_nat n) by lia.
    constructor; [apply IH|].
    apply Forall_seqZ. intros k Hk. lia.
Qed.

(** C4, as amended.  The identifiers returned by N sequential [Register]
    calls are strictly increasing, and none is returned twice, as long as
    the counter does not pass the largest unsigned 64-bit value during
    the calls. *)
Theorem Register_ids_increasing (callers : list (Factory * Callback)) r :
  uint64 (next_id_ r) →
  next_id_ r + Z.of_nat (length callers) ≤ UINT64_MAX + 1 →
  StronglySorted Z.lt (Register_each callers r).1 ∧
  NoDup (Register_each callers r).1.
Proof.
  intros Hrange Hroom. rewrite Register_each_ids by done.
  split; [apply seqZ_StronglySorted|apply NoDup_seqZ].
Qed.

(** *** The entry point [OnCalledStatic] *)

Lemma Process_eta p :
  {| singleton_ := singleton_ p; host_calls := host_calls p |} = p.
Proof. by destruct p. Qed.

Lemma Uint64Value_uint64 (z : Z) :
  uint64 z → BigInt.Uint64Value (VBigInt z) = (z, true).
Proof.
  intros Hz. unfold BigInt.Uint64Value.
  by rewrite wrap64_uint64, bool_decide_eq_true_2.
Qed.

Lemma Uint64Value_lossy (z : Z) :
  ¬ uint64 z → BigInt.Uint64Value (VBigInt z) = (wrap64 z, false).
Proof.
  intros Hz. unfold BigInt.Uint64Value.
  by rewrite bool_decide_eq_false_2.
Qed.

(** The lambda [info[idx++]] never answers an empty handle, so the array
    of the arguments is always built. *)
Lemma fill_arguments (info : FunctionCallbackInfo) (n idx : nat) :
  (idx + n)%nat = Length info →
  Array.fill n (next_argument info) idx = Some (drop idx (arguments info)).
Proof.
  unfold Length. revert idx. induction n as [|n IH]; intros idx Hlen.
  - simpl. by rewrite drop_ge by lia.
  - simpl. rewrite IH by lia. unfold at_index.
    destruct (arguments info !! idx) as [v|] eqn:Hv.
    + simpl. by rewrite (drop_S _ _ _ Hv).
    + apply lookup_ge_None in Hv. lia.
Qed.

Lemma NewFromCallback_arguments (info : FunctionCallbackInfo) :
  Array.NewFromCallback (Length info) (next_argument info) 0%nat =
  Some (Array.New (arguments info)).
Proof.
  unfold Array.NewFromCallback. by rewrite fill_arguments.
Qed.

(** On data that holds two big-integers in range the entry point reaches
    the lookup, and what it does is decided by the registry alone. *)
Lemma OnCalledStatic_decoded (info : FunctionCallbackInfo) (c k : Z) p :
  Data info = VArray [Some (VBigInt c); Some (VBigInt k)] →
  uint64 c → uint64 k →
  OnCalledStatic info p =
  match callback_callers_ (singleton_ p) !! c with
  | None => Normal (returned_at CallerNotFound) p
  | Some caller =>
      Normal (returned_at CallbackDone)
        (after_callback p caller (GetCurrentContext (GetIsolate info)) k
           (arguments info))
  end.
Proof.
  intros Hdata Hc Hk. unfold OnCalledStatic. rewrite Hdata.
  cbn [IsArray negb Array.Length length Nat.eqb Array.Get lookup
       list_lookup from_option id IsBigInt IsEmpty orb].
  rewrite !Uint64Value_uint64 by done. cbn [negb].
  rewrite NewFromCallback_arguments.
  unfold mbind, M_bind, ToLocalChecked, mret, M_ret, on_singleton, Get.
  destruct (callback_callers_ (singleton_ p) !! c) as [caller|];
    by rewrite Process_eta.
Qed.

(** On malformed data the entry point returns at a data check in the
    unchanged process; an exception is pending exactly when one of the two
    element reads was made and answered an empty handle. *)
Lemma OnCalledStatic_malformed (info : FunctionCallbackInfo) p :
  malformed_data (Data info) →
  ∃ rp, OnCalledStatic info p =
          Normal {| return_point := rp;
                    exception_pending := element_read_raises (Data info) |}
            p ∧
        malformed_data_return rp = true.
Proof.
  intros Hbad. unfold OnCalledStatic.
  destruct (Data info) as [| | | | z | elements | d] eqn:Hdata;
    try (by eexists).
  destruct elements as [|e0 [|e1 [|e2 l]]]; try (by eexists).
  cbn [IsArray negb Array.Length length Nat.eqb Array.Get lookup
       list_lookup from_option id element_read_raises].
  destruct e0 as [[| | | | z0 | |]|]; try (by eexists).
  destruct (decide (uint64 z0)) as [Hz0|Hz0];
    [rewrite Uint64Value_uint64 by done
    |rewrite Uint64Value_lossy by done; by eexists].
  destruct e1 as [[| | | | z1 | |]|]; try (by eexists).
  destruct (decide (uint64 z1)) as [Hz1|Hz1];
    [|cbn [IsBigInt negb]; rewrite Uint64Value_lossy by done; by eexists].
  exfalso. destruct Hbad as [Hshape|(e0 & e1 & [= <- <-] & Helem)].
  - by eapply Hshape.
  - destruct Helem as [[?|[(v & [= <-] & ?)|(z & [= <-] & ?)]]
                      |[?|[(v & [= <-] & ?)|(z & [= <-] & ?)]]]; done.
Qed.

(** Data is either malformed or a pair of big-integers in range. *)
Lemma data_cases (data : Value) :
  malformed_data data ∨
  ∃ c k, data = VArray [Some (VBigInt c); Some (VBigInt k)] ∧
         uint64 c ∧ uint64 k.
Proof.
  destruct data as [| | | | z | elements | d];
    try (left; left; intros ??; discriminate).
  destruct elements as [|e0 [|e1 [|e2 l]]];
    try (left; left; intros ??; discriminate).
  assert (∀ e : MaybeLocal Value,
            malformed_element e ∨ ∃ z, e = Some (VBigInt z) ∧ uint64 z)
    as Helem.
  { intros [[| | | | z | |]|];
      try (left; right; left; by eexists).
    - destruct (decide (uint64 z)); [right; by eexists|].
      left; right; right; by eexists.
    - left; by left. }
  destruct (Helem e0) as [?|(c & -> & ?)];
    [left; right; exists e0, e1; by auto|].
  destruct (Helem e1) as [?|(k & -> & ?)];
    [left; right; eexists _, e1; by auto|].
  right. by exists c, k.
Qed.

(** C5, as amended.  When the data attached to the function is not
    exactly a 2-element array, or one of its two elements is absent, is
    not a big-integer or is a big-integer outside the unsigned 64-bit
    range, [OnCalledStatic] returns at one of its data checks and the
    process is as before: no host callback was called and nothing is
    fatal.  The call then evaluates to undefined, with no exception,
    unless the read of one of the two elements answered an empty handle:
    the exception that read raised is left pending and the call ends with
    it. *)
Theorem OnCalledStatic_malformed_silent (isolate : Isolate) (data : Value)
    (args : list Value) p :
  malformed_data data →
  (∃ rp, OnCalledStatic
           {| GetIsolate := isolate; Data := data; arguments := args |} p =
         Normal {| return_point := rp;
                   exception_pending := element_read_raises data |} p ∧
         malformed_data_return rp = true) ∧
  Call isolate (VFunction data) args p =
    if element_read_raises data then Thrown p else Normal VUndefined p.
Proof.
  intros Hbad.
  pose proof (OnCalledStatic_malformed
                {| GetIsolate := isolate; Data := data; arguments := args |}
                p Hbad) as (rp & Hrun & Hrp).
  split; [by exists rp|].
  unfold Call, callback_info, mbind, M_bind. rewrite Hrun. simpl.
  by destruct (element_read_raises data).
Qed.

(** *** Minted functions *)

Lemma MakeJSCallback_func_Normal maker (isolate : Isolate) (k : Z) p
    (func : Value) p' :
  MakeJSCallback_func maker isolate k p = Normal func p' →
  func = VFunction (MakeJSCallback_data maker k) ∧ p' = p.
Proof.
  unfold MakeJSCallback_func, Function.New, ToLocalChecked.
  by intros [= <- <-].
Qed.

Lemma MakeJSCallback_data_shape maker (k : Z) :
  MakeJSCallback_data maker k =
  VArray [Some (VBigInt (callback_caller_id_ (callback_caller_holder_ maker)));
          Some (VBigInt k)].
Proof. reflexivity. Qed.

(** A call of a minted function whose identifiers are in range is decided
    by the registry alone. *)
Lemma OnCalledStatic_minted maker (k : Z) (isolate' : Isolate)
    (args : list Value) p :
  let c := callback_caller_id_ (callback_caller_holder_ maker) in
  uint64 c → uint64 k →
  OnCalledStatic
    (callback_info isolate' (VFunction (MakeJSCallback_data maker k)) args)
    p =
  match callback_callers_ (singleton_ p) !! c with
  | None => Normal (returned_at CallerNotFound) p
  | Some caller =>
      Normal (returned_at CallbackDone)
        (after_callback p caller (GetCurrentContext isolate') k args)
  end.
Proof.
  intros c Hc Hk. by apply OnCalledStatic_decoded.
Qed.

Lemma JSCallbackMaker_new_Normal (context_holder : ContextHolder)
    (bv_factory : Factory) (callback : Callback) p :
  JSCallbackMaker_new context_holder bv_factory callback p =
  Normal
    {| context_holder_ := context_holder;
       maker_bv_factory_ := bv_factory;
       callback_caller_holder_ :=
         {| callback_caller_id_ := next_id_ (singleton_ p) |} |}
    {| singleton_ := (Register bv_factory callback (singleton_ p)).2;
       host_calls := host_calls p |}.
Proof. reflexivity. Qed.

Lemma JSCallbackMaker_delete_Normal maker p :
  JSCallbackMaker_delete maker p =
  Normal tt
    {| singleton_ :=
         Unregister (callback_caller_id_ (callback_caller_holder_ maker))
           (singleton_ p);
       host_calls := host_calls p |}.
Proof. reflexivity. Qed.

(** C8.  An unsigned 64-bit caller identifier and callback identifier,
    encoded as [MakeJSCallback] encodes them, decode in [OnCalledStatic]
    to themselves with the lossless flag set: a call of a function just
    minted looks up the maker's caller identifier, and no other, and
    passes the function's callback identifier, and no other, to
    [DoCallback]; so it never returns at one of the data checks. *)
Theorem identifiers_roundtrip maker (isolate : Isolate) (k : Z) :
  let c := JSCallbackCallerHolder_Get (callback_caller_holder_ maker) in
  uint64 c → uint64 k →
  BigInt.Uint64Value (BigInt.NewFromUnsigned c) = (c, true) ∧
  BigInt.Uint64Value (BigInt.NewFromUnsigned k) = (k, true) ∧
  ∀ p0 func p1,
    MakeJSCallback_func maker isolate k p0 = Normal func p1 →
    ∀ (isolate' : Isolate) (args : list Value) p,
      OnCalledStatic (callback_info isolate' func args) p =
        (callback_caller ← on_singleton (Get c);
         match callback_caller with
         | None => mret (returned_at CallerNotFound)
         | Some caller =>
             _ ← DoCallback caller (GetCurrentContext isolate') k
                   (Array.New args);
             mret (returned_at CallbackDone)
         end) p ∧
      ∀ returned p',
        OnCalledStatic (callback_info isolate' func args) p =
          Normal returned p' →
        malformed_data_return (return_point returned) = false ∧
        exception_pending returned = false.
Proof.
  intros c Hc Hk.
  split; [by apply Uint64Value_uint64|].
  split; [by apply Uint64Value_uint64|].
  intros p0 func p1 (-> & _)%MakeJSCallback_func_Normal isolate' args p.
  rewrite OnCalledStatic_minted by done.
  unfold mbind, M_bind, on_singleton, Get, c, JSCallbackCallerHolder_Get.
  destruct (callback_callers_ (singleton_ p) !! _) as [caller|]; simpl;
    rewrite ?Process_eta; (split; [done|by intros ?? [= <- <-]]).
Qed.

Lemma perform_all_cons call calls r :
  (perform_all (call :: calls) r).2 =
  (perform_all calls (perform call r).2).2.
Proof.
  simpl. destruct (perform call r) as [e r1]; simpl.
  by destruct (perform_all calls r1).
Qed.

(** C2.  A function minted by a maker with callback identifier [k] is
    called with the arguments [args] while the maker's caller is still in
    the registry under the maker's identifier: the host callback of the
    maker is called exactly once, with [k] and with the conversion of the
    array of the arguments, in their order; nothing else changes. *)
Theorem called_while_registered (context_holder : ContextHolder)
    (bv_factory : Factory) (callback : Callback) p0 maker p1
    (isolate : Isolate) (k : Z) p2 (func : Value) p3 p
    (isolate' : Isolate) (args : list Value) :
  uint64 (next_id_ (singleton_ p0)) → uint64 k →
  JSCallbackMaker_new context_holder bv_factory callback p0 =
    Normal maker p1 →
  MakeJSCallback_func maker isolate k p2 = Normal func p3 →
  (Get (JSCallbackCallerHolder_Get (callback_caller_holder_ maker))
     (singleton_ p)).1 =
    Some {| bv_factory_ := bv_factory; callback_ := callback |} →
  Call isolate' func args p =
  Normal VUndefined
    {| singleton_ := singleton_ p;
       host_calls :=
         host_calls p ++
           [ {| called := callback;
                called_callback_id := k;
                called_args :=
                  New bv_factory (GetCurrentContext isolate')
                    (VArray (Some <$> args)) |} ] |}.
Proof.
  intros Hid Hk Hnew (-> & _)%MakeJSCallback_func_Normal.
  rewrite JSCallbackMaker_new_Normal in Hnew. injection Hnew as <- <-.
  cbn [callback_caller_holder_ callback_caller_id_
       JSCallbackCallerHolder_Get].
  rewrite Get_lookup. intros Hpresent.
  unfold Call, mbind, M_bind.
  rewrite OnCalledStatic_minted by done.
  cbn [callback_caller_holder_ callback_caller_id_]. by rewrite Hpresent.
Qed.

(** *** Minting and the registry *)

Lemma MakeJSCallback_ok maker (isolate : Isolate) (k : Z) p :
  MakeJSCallback maker isolate k p =
  Normal (New (maker_bv_factory_ maker) (context_ (context_holder_ maker))
            (VFunction (MakeJSCallback_data maker k))) p.
Proof. reflexivity. Qed.

Lemma MakeJSCallback_each_ok maker (isolate : Isolate)
    (callback_ids : list Z) p :
  MakeJSCallback_each maker isolate callback_ids p =
  Normal
    ((λ k, New (maker_bv_factory_ maker) (context_ (context_holder_ maker))
             (VFunction (MakeJSCallback_data maker k))) <$> callback_ids)
    p.
Proof.
  induction callback_ids as [|k ks IH]; [done|].
  cbn [MakeJSCallback_each]. unfold mbind, M_bind in *.
  by rewrite MakeJSCallback_ok, IH.
Qed.

(** C10.  Minting any number of functions from a maker leaves the
    process, and so the registry, as it was.  The maker's entry is made by
    its constructor: afterwards the lookup of the maker's identifier
    answers its caller and every other lookup answers as before.  It is
    removed by its destructor: afterwards the lookup of the identifier is
    empty and every other lookup and the counter are as before.  A whole
    life of the maker, with any number of functions minted, leaves exactly
    that: no entry under the identifier, every other entry as it was. *)
Theorem MakeJSCallback_leaves_registry (context_holder : ContextHolder)
    (bv_factory : Factory) (callback : Callback) maker (isolate : Isolate)
    (callback_ids : list Z) p :
  (∃ vs, MakeJSCallback_each maker isolate callback_ids p = Normal vs p ∧
         length vs = length callback_ids) ∧
  (∀ (isolate' : Isolate) (k : Z) v p',
     MakeJSCallback maker isolate' k p = Normal v p' → p' = p) ∧
  (∃ maker' p',
     JSCallbackMaker_new context_holder bv_factory callback p =
       Normal maker' p' ∧
     (Get (JSCallbackCallerHolder_Get (callback_caller_holder_ maker'))
        (singleton_ p')).1 =
       Some {| bv_factory_ := bv_factory; callback_ := callback |} ∧
     (∀ j, j ≠ JSCallbackCallerHolder_Get (callback_caller_holder_ maker') →
           (Get j (singleton_ p')).1 = (Get j (singleton_ p)).1) ∧
     host_calls p' = host_calls p) ∧
  (∃ p',
     JSCallbackMaker_delete maker p = Normal tt p' ∧
     (Get (JSCallbackCallerHolder_Get (callback_caller_holder_ maker))
        (singleton_ p')).1 = None ∧
     (∀ j, j ≠ JSCallbackCallerHolder_Get (callback_caller_holder_ maker) →
           (Get j (singleton_ p')).1 = (Get j (singleton_ p)).1) ∧
     next_id_ (singleton_ p') = next_id_ (singleton_ p) ∧
     host_calls p' = host_calls p) ∧
  (∃ p',
     (made ← JSCallbackMaker_new context_holder bv_factory callback;
      _ ← MakeJSCallback_each made isolate callback_ids;
      JSCallbackMaker_delete made) p = Normal tt p' ∧
     (Get (next_id_ (singleton_ p)) (singleton_ p')).1 = None ∧
     (∀ j, j ≠ next_id_ (singleton_ p) →
           (Get j (singleton_ p')).1 = (Get j (singleton_ p)).1) ∧
     host_calls p' = host_calls p).
Proof.
  split; [|split; [|split; [|split]]].
  - eexists. split; [by apply MakeJSCallback_each_ok|].
    by rewrite length_fmap.
  - intros isolate' k v p' Hrun.
    rewrite MakeJSCallback_ok in Hrun. by injection Hrun.
  - eexists _, _. split; [apply JSCallbackMaker_new_Normal|].
    cbn [callback_caller_holder_ callback_caller_id_
         JSCallbackCallerHolder_Get singleton_ host_calls].
    split; [|split; [|done]].
    + rewrite Get_lookup, Register_lookup. by rewrite decide_True.
    + intros j Hj. rewrite !Get_lookup, Register_lookup.
      by rewrite decide_False.
  - eexists. split; [apply JSCallbackMaker_delete_Normal|].
    cbn [singleton_ host_calls]. unfold JSCallbackCallerHolder_Get.
    split; [|split; [|done]].
    + rewrite Get_lookup, Unregister_lookup. by rewrite decide_True.
    + intros j Hj. rewrite !Get_lookup, Unregister_lookup.
      by rewrite decide_False.
  - eexists. split.
    { unfold mbind, M_bind. rewrite JSCallbackMaker_new_Normal.
      rewrite MakeJSCallback_each_ok.
      by rewrite JSCallbackMaker_delete_Normal. }
    cbn [callback_caller_holder_ callback_caller_id_ singleton_ host_calls].
    split; [|split; [|done]].
    + rewrite Get_lookup, Unregister_lookup. by rewrite decide_True.
    + intros j Hj.
      rewrite !Get_lookup, Unregister_lookup, decide_False by done.
      rewrite Register_lookup. by rewrite decide_False.
Qed.

(** *** The counter comes back

    After 2^64 registrations the counter is where it started, whatever
    is still registered. *)

Lemma Register_each_state (bv_factory : Factory) (callback : Callback)
    (callers : list (Factory * Callback)) r :
  (Register_each ((bv_factory, callback) :: callers) r).2 =
  (Register_each callers (Register bv_factory callback r).2).2.
Proof. simpl. by destruct (Register_each callers _). Qed.

Lemma Register_each_next_id (callers : list (Factory * Callback)) r :
  uint64 (next_id_ r) →
  next_id_ (Register_each callers r).2 =
  wrap64 (next_id_ r + Z.of_nat (length callers)).
Proof.
  revert r. induction callers as [|[bv_factory callback] callers IH];
    intros r Hrange.
  - simpl. rewrite Z.add_0_r. by rewrite wrap64_uint64.
  - rewrite Register_each_state, IH by apply wrap64_range.
    simpl next_id_. unfold wrap64. rewrite Zplus_mod_idemp_l.
    f_equal. cbn [length]. lia.
Qed.

Lemma Register_each_keeps (callers : list (Factory * Callback)) r i :
  is_Some (callback_callers_ r !! i) →
  is_Some (callback_callers_ (Register_each callers r).2 !! i).
Proof.
  revert r. induction callers as [|[bv_factory callback] callers IH];
    intros r Hpresent; [done|].
  rewrite Register_each_state. apply IH.
  rewrite Register_lookup. by case_decide.
Qed.

(** A registry whose counter stands on a key in use is reached by 2^64
    registrations, the first of which is never unregistered. *)
Lemma counter_returns_to_live_key (first : Factory * Callback)
    (callers : list (Factory * Callback)) :
  Z.of_nat (length (first :: callers)) = UINT64_MAX + 1 →
  let r := (Register_each (first :: callers)
              (JSCallbackCallerRegistry_new 0)).2 in
  next_id_ r = 0 ∧ is_Some (callback_callers_ r !! 0).
Proof.
  intros Hlen r. subst r. split.
  - rewrite Register_each_next_id by (by vm_compute).
    rewrite Hlen. reflexivity.
  - destruct first as [bv_factory callback].
    rewrite Register_each_state. apply Register_each_keeps.
    rewrite Register_lookup. case_decide as Hkey; [done|by destruct Hkey].
Qed.

End Properties.

(** ** The properties on the concrete host *)

Lemma uint64_small (z : Z) : 0 ≤ z ≤ 1000 → uint64 z.
Proof. unfold uint64, UINT64_MAX. lia. Qed.

(** An absent identifier is unregistered: the registry does not change. *)
Lemma Unregister_absent_witness :
  Unregister 5 (Sample.registry 6 [(2, Sample.caller 1%nat)]) =
  Sample.registry 6 [(2, Sample.caller 1%nat)].
Proof.
  apply (proj1 (Unregister_absent
                  (Sample.registry 6 [(2, Sample.caller 1%nat)]) 5)).
  reflexivity.
Defined.

(** [Register] on a registry whose counter is ahead of its only key. *)
Lemma registry_frame_witness :
  Register_frame_as_stated Sample.factory 2%nat
    (Sample.registry 3 [(1, Sample.caller 1%nat)]).
Proof.
  pose proof (proj2 (proj2 (registry_frame
                (Sample.registry 3 [(1, Sample.caller 1%nat)]) 1
                Sample.factory 2%nat))) as Hframe.
  cbv beta iota delta [Register] in Hframe.
  destruct Hframe as (_ & _ & _ & _ & Hframe).
  apply Hframe; [reflexivity|].
  unfold UINT64_MAX; simpl; lia.
Defined.

(** The frame as stated fails where the counter stands on a key in use:
    [Register] overwrites the entry of key 0. *)
Lemma Register_overwrites_live_key :
  ¬ Register_frame_as_stated Sample.factory 2%nat
      (Sample.registry 0 [(0, Sample.caller 1%nat)]).
Proof.
  intros (_ & Hkept & _).
  specialize (Hkept 0 (Sample.caller 1%nat) eq_refl).
  vm_compute in Hkept. discriminate.
Qed.

(** Three registrations from counter 5. *)
Lemma Register_ids_increasing_witness :
  StronglySorted Z.lt
    (Register_each
       [(Sample.factory, 1%nat); (Sample.factory, 2%nat);
        (Sample.factory, 3%nat)]
       (Sample.registry 5 [])).1 ∧
  NoDup
    (Register_each
       [(Sample.factory, 1%nat); (Sample.factory, 2%nat);
        (Sample.factory, 3%nat)]
       (Sample.registry 5 [])).1.
Proof.
  apply (Register_ids_increasing
           [(Sample.factory, 1%nat); (Sample.factory, 2%nat);
            (Sample.factory, 3%nat)]
           (Sample.registry 5 [])).
  - apply uint64_small. simpl. lia.
  - unfold UINT64_MAX. simpl. lia.
Defined.

(** Two registrations from the largest counter value return 2^64 - 1 and
    then 0: the identifiers are not increasing. *)
Lemma Register_ids_wrap_around :
  (Register_each [(Sample.factory, 1%nat); (Sample.factory, 2%nat)]
     (Sample.registry UINT64_MAX [])).1 = [UINT64_MAX; 0] ∧
  ¬ StronglySorted Z.lt
      (Register_each [(Sample.factory, 1%nat); (Sample.factory, 2%nat)]
         (Sample.registry UINT64_MAX [])).1.
Proof.
  split; [reflexivity|].
  change (¬ StronglySorted Z.lt [UINT64_MAX; 0]).
  intros Hsorted. apply StronglySorted_inv in Hsorted as [_ Hall].
  apply Forall_cons in Hall as [Hlt _].
  unfold UINT64_MAX in Hlt. lia.
Qed.

(** Data whose first element is 2^64. *)
Lemma OnCalledStatic_malformed_silent_witness :
  Call Sample.isolate
    (VFunction (VArray [Some (VBigInt (2 ^ 64)); Some (VBigInt 0)]))
    [VNull] (Sample.process 1 [(0, Sample.caller 1%nat)]) =
  Normal VUndefined (Sample.process 1 [(0, Sample.caller 1%nat)]).
Proof.
  apply (OnCalledStatic_malformed_silent Sample.isolate
           (VArray [Some (VBigInt (2 ^ 64)); Some (VBigInt 0)]) [VNull]
           (Sample.process 1 [(0, Sample.caller 1%nat)])).
  right. exists (Some (VBigInt (2 ^ 64))), (Some (VBigInt 0)).
  split; [reflexivity|]. left. right. right.
  exists (2 ^ 64). split; [reflexivity|].
  unfold uint64, UINT64_MAX. lia.
Defined.

(** Data whose second element cannot be read: the read answers an empty
    handle, [OnCalledStatic] returns at its check of that element, and the
    call ends with the exception the read raised. *)
Lemma unreadable_element_throws :
  OnCalledStatic
    (callback_info Sample.isolate
       (VFunction (VArray [Some (VBigInt 0); None])) [VNull])
    (Sample.process 1 [(0, Sample.caller 1%nat)]) =
  Normal {| return_point := CallbackIdEmpty; exception_pending := true |}
    (Sample.process 1 [(0, Sample.caller 1%nat)]) ∧
  Call Sample.isolate
    (VFunction (VArray [Some (VBigInt 0); None])) [VNull]
    (Sample.process 1 [(0, Sample.caller 1%nat)]) =
  Thrown (Sample.process 1 [(0, Sample.caller 1%nat)]).
Proof. split; reflexivity. Qed.

(** The identifiers 3 and 7, with callers registered under both: the call
    looks up 3 and hands 7 to the callback of the caller found there. *)
Lemma identifiers_roundtrip_witness :
  BigInt.Uint64Value (BigInt.NewFromUnsigned 3) = (3, true) ∧
  BigInt.Uint64Value (BigInt.NewFromUnsigned 7) = (7, true) ∧
  OnCalledStatic
    (callback_info Sample.isolate
       (VFunction (VArray [Some (VBigInt 3); Some (VBigInt 7)])) [VNull])
    (Sample.process 8
       [(3, Sample.caller 5%nat); (7, Sample.caller 6%nat)]) =
  Normal (returned_at CallbackDone)
    {| singleton_ :=
         Sample.registry 8
           [(3, Sample.caller 5%nat); (7, Sample.caller 6%nat)];
       host_calls :=
         [ {| called := 5%nat;
              called_callback_id := 7;
              called_args := (1%N, VArray [Some VNull]) |} ] |}.
Proof.
  pose proof (identifiers_roundtrip (Callback := Sample.Callback)
                (Sample.maker 3) Sample.isolate 7) as Hround.
  cbv zeta in Hround.
  destruct Hround as (Hc & Hk & Hdecode).
  - apply uint64_small. simpl. lia.
  - apply uint64_small. lia.
  - split; [exact Hc|]. split; [exact Hk|].
    destruct (Hdecode (Sample.process 4 [(3, Sample.caller 5%nat)])
                (VFunction (VArray [Some (VBigInt 3); Some (VBigInt 7)]))
                (Sample.process 4 [(3, Sample.caller 5%nat)]) eq_refl
                Sample.isolate [VNull]
                (Sample.process 8
                   [(3, Sample.caller 5%nat); (7, Sample.caller 6%nat)]))
      as [Hrun _].
    rewrite Hrun. reflexivity.
Defined.

(** The same function called with three arguments before the maker is
    destroyed. *)
Lemma called_while_registered_witness :
  Call Sample.isolate
    (VFunction (VArray [Some (VBigInt 3); Some (VBigInt 7)]))
    [VNull; VBoolean true; VString "c"]
    (Sample.process 4 [(3, Sample.caller 5%nat)]) =
  Normal VUndefined
    {| singleton_ := Sample.registry 4 [(3, Sample.caller 5%nat)];
       host_calls :=
         [ {| called := 5%nat;
              called_callback_id := 7;
              called_args :=
                (1%N,
                 VArray [Some VNull; Some (VBoolean true);
                         Some (VString "c")]) |} ] |}.
Proof.
  apply (called_while_registered Sample.context_holder Sample.factory 5%nat
           (Sample.process 3 []) (Sample.maker 3)
           (Sample.process 4 [(3, Sample.caller 5%nat)])
           Sample.isolate 7
           (Sample.process 4 [(3, Sample.caller 5%nat)])
           (VFunction (VArray [Some (VBigInt 3); Some (VBigInt 7)]))
           (Sample.process 4 [(3, Sample.caller 5%nat)])
           (Sample.process 4 [(3, Sample.caller 5%nat)])
           Sample.isolate [VNull; VBoolean true; VString "c"]).
  - apply uint64_small. simpl. lia.
  - apply uint64_small. lia.
  - reflexivity.
  - reflexivity.
  - reflexivity.
Defined.

(** A maker made when the counter is 3, three functions minted, the maker
    destroyed: no entry under 3, the entry under 1 as it was. *)
Lemma MakeJSCallback_leaves_registry_witness :
  ∃ p',
    (made ← JSCallbackMaker_new Sample.context_holder Sample.factory 5%nat;
     _ ← MakeJSCallback_each made Sample.isolate [1; 2; 3];
     JSCallbackMaker_delete made)
      (Sample.process 3 [(1, Sample.caller 1%nat)]) = Normal tt p' ∧
    (Get 3 (singleton_ p')).1 = None ∧
    (∀ j, j ≠ 3 →
          (Get j (singleton_ p')).1 =
          (Get j (Sample.registry 3 [(1, Sample.caller 1%nat)])).1) ∧
    host_calls p' = [].
Proof.
  exact (proj2 (proj2 (proj2 (proj2
    (MakeJSCallback_leaves_registry Sample.context_holder Sample.factory
       5%nat (Sample.maker 0) Sample.isolate [1; 2; 3]
       (Sample.process 3 [(1, Sample.caller 1%nat)])))))).
Defined.


(** ** How the operations compose *)

Section Composition.

Context {BinaryValue Callback : Type}.

Local Abbreviation Factory := (@BinaryValueFactory BinaryValue).
Local Abbreviation Caller := (@JSCallbackCaller BinaryValue Callback).
Local Abbreviation Registry := (@JSCallbackCallerRegistry BinaryValue Callback).
Local Abbreviation Proc := (@Process BinaryValue Callback).
Local Abbreviation Event := (@RegistryEvent BinaryValue Callback).
Local Abbreviation RCall := (@RegistryCall BinaryValue Callback).
Local Abbreviation Maker := (@JSCallbackMaker BinaryValue).

Implicit Types (r : Registry) (p : Proc) (i j : Z) (caller : Caller)
  (log : list Event) (calls : list RCall) (maker : Maker).

(** *** Calls of the registry on different identifiers *)

(** X1.  Two [Unregister] calls give the same registry in either order:
    the order in which holders are destroyed does not matter. *)
Theorem Unregister_commute r i j :
  Unregister i (Unregister j r) = Unregister j (Unregister i r).
Proof.
  unfold Unregister; simpl. f_equal. apply delete_delete.
Qed.

(** X2.  A maker constructed and at once destroyed, in a registry whose
    counter does not stand on a key in use, leaves the map of the registry
    and the host as they were; only the counter has advanced. *)
Theorem new_then_delete_restores (context_holder : ContextHolder)
    (bv_factory : Factory) (callback : Callback) p :
  callback_callers_ (singleton_ p) !! next_id_ (singleton_ p) = None →
  (JSCallbackMaker_new context_holder bv_factory callback
     ≫= JSCallbackMaker_delete) p =
  Normal tt
    {| singleton_ :=
         {| next_id_ := wrap64 (next_id_ (singleton_ p) + 1);
            callback_callers_ := callback_callers_ (singleton_ p) |};
       host_calls := host_calls p |}.
Proof.
  intros Hfree.
  unfold mbind, M_bind. rewrite JSCallbackMaker_new_Normal.
  rewrite JSCallbackMaker_delete_Normal.
  unfold Unregister, Register; simpl. by rewrite delete_insert_id.
Qed.

(** X3.  [Unregister(j)] and a [Register] that returns another identifier
    give the same registry and the same identifier in either order. *)
Theorem Register_Unregister_commute (bv_factory : Factory)
    (callback : Callback) r j :
  j ≠ next_id_ r →
  Unregister j (Register bv_factory callback r).2 =
    (Register bv_factory callback (Unregister j r)).2 ∧
  (Register bv_factory callback (Unregister j r)).1 =
    (Register bv_factory callback r).1.
Proof.
  intros Hother. split; [|done].
  unfold Unregister, Register; simpl. f_equal.
  by apply delete_insert_ne.
Qed.

(** *** The entry point and the process *)

(** X5.  [OnCalledStatic] does one of two things.  Either it returns with
    the process as it found it: no host callback is called and the
    registry is not changed.  Or, and only when its data holds two
    big-integers in the unsigned 64-bit range of which the first is
    registered, it hands over to [DoCallback] once, with the caller
    registered under the first, the second as callback identifier, and
    the array of the arguments, the registry being still as it found
    it. *)
Theorem OnCalledStatic_dispatch (info : FunctionCallbackInfo) p :
  (∃ returned,
     return_point returned ≠ CallbackDone ∧
     OnCalledStatic info p = Normal returned p) ∨
  (∃ (c k : Z) caller,
     Data info = VArray [Some (VBigInt c); Some (VBigInt k)] ∧
     uint64 c ∧ uint64 k ∧
     (Get c (singleton_ p)).1 = Some caller ∧
     OnCalledStatic info p =
       (_ ← DoCallback caller (GetCurrentContext (GetIsolate info)) k
              (VArray (Some <$> arguments info));
        mret (returned_at CallbackDone)) p).
Proof.
  destruct (data_cases (Data info)) as [Hbad|(c & k & Hdata & Hc & Hk)].
  - destruct (OnCalledStatic_malformed info p Hbad) as (rp & Hrun & Hrp).
    left. eexists. split; [|exact Hrun]. simpl. by intros ->.
  - rewrite (OnCalledStatic_decoded info c k p Hdata Hc Hk).
    destruct (callback_callers_ (singleton_ p) !! c) as [caller|] eqn:Hget.
    + right. exists c, k, caller. rewrite Get_lookup. done.
    + left. by exists (returned_at CallerNotFound).
Qed.

(** X11.  The array of the arguments is always built: the lambda
    [info[idx++]] is asked [info.Length()] times and answers the arguments
    in order, so [ToLocalChecked] never aborts there; a call without
    arguments gives the empty array. *)
Theorem arguments_array_built (info : FunctionCallbackInfo) p :
  ToLocalChecked
    (Array.NewFromCallback (Length info) (next_argument info) 0%nat) p =
  Normal (VArray (Some <$> arguments info)) p ∧
  Array.Length (VArray (Some <$> arguments info)) = Length info.
Proof.
  rewrite NewFromCallback_arguments. split; [done|].
  unfold Array.Length, Length. by rewrite length_fmap.
Qed.

(** *** Histories: the identifiers issued and the entries kept *)

Lemma perform_all_log_cons call calls r :
  (perform_all (call :: calls) r).1 =
  (perform call r).1 :: (perform_all calls (perform call r).2).1.
Proof.
  simpl. destruct (perform call r) as [e r1]; simpl.
  by destruct (perform_all calls r1).
Qed.

Lemma perform_all_next_id calls r :
  uint64 (next_id_ r) →
  next_id_ (perform_all calls r).2 =
  wrap64 (next_id_ r + Z.of_nat (registrations calls)).
Proof.
  revert r. induction calls as [|[bv_factory callback|id] calls IH];
    intros r Hrange.
  - simpl. rewrite Z.add_0_r. by rewrite wrap64_uint64.
  - rewrite perform_all_cons, IH by apply wrap64_range.
    simpl next_id_. unfold wrap64. rewrite Zplus_mod_idemp_l.
    f_equal. cbn [registrations]. lia.
  - rewrite perform_all_cons, IH by done. done.
Qed.

Lemma perform_all_ids calls r :
  uint64 (next_id_ r) →
  next_id_ r + Z.of_nat (registrations calls) ≤ UINT64_MAX + 1 →
  registered_ids (perform_all calls r).1 =
  seqZ (next_id_ r) (Z.of_nat (registrations calls)).
Proof.
  revert r. induction calls as [|[bv_factory callback|id] calls IH];
    intros r Hrange Hroom; [done| |].
  - rewrite perform_all_log_cons. cbn [registrations] in *.
    rewrite seqZ_cons by lia. simpl. f_equal.
    pose proof (wrap64_range (next_id_ r + 1)) as Hnext.
    destruct (registrations calls) as [|n] eqn:Hcount.
    + rewrite IH; [by rewrite !seqZ_nil by (simpl; lia)|done|].
      unfold uint64 in Hnext. simpl. lia.
    + assert (wrap64 (next_id_ r + 1) = next_id_ r + 1) as Heq.
      { apply wrap64_succ. unfold uint64 in Hrange. lia. }
      rewrite IH; simpl next_id_; rewrite ?Heq.
      * f_equal; lia.
      * unfold uint64 in *. lia.
      * lia.
  - rewrite perform_all_log_cons. simpl. by apply (IH (Unregister id r)).
Qed.

Lemma registered_ids_elem log i caller :
  Registered i caller ∈ log → i ∈ registered_ids log.
Proof.
  induction log as [|e log IH]; [by intros ?%elem_of_nil|].
  intros [<-|Hin]%elem_of_cons.
  - left.
  - destruct e; simpl; [right|]; by apply IH.
Qed.

Lemma perform_all_no_Unregistered calls r i :
  CallUnregister i ∉ calls → Unregistered i ∉ (perform_all calls r).1.
Proof.
  revert r. induction calls as [|call calls IH]; intros r Hnot.
  - apply not_elem_of_nil.
  - rewrite perform_all_log_cons. apply not_elem_of_cons. split.
    + destruct call as [bv_factory callback|id]; simpl; [done|].
      intros [= ->]. apply Hnot. left.
    + apply IH. intros Hin. apply Hnot. by right.
Qed.

(** X6.  Whatever [Unregister] calls come between them, the [Register]
    calls of a history return consecutive identifiers, starting at the
    counter, as long as the counter does not pass its largest value; an
    identifier that was unregistered is not handed out again.  The counter
    ends at the start plus the number of registrations, modulo 2^64. *)
Theorem interleaved_ids_consecutive calls r :
  uint64 (next_id_ r) →
  next_id_ r + Z.of_nat (registrations calls) ≤ UINT64_MAX + 1 →
  registered_ids (perform_all calls r).1 =
    seqZ (next_id_ r) (Z.of_nat (registrations calls)) ∧
  next_id_ (perform_all calls r).2 =
    wrap64 (next_id_ r + Z.of_nat (registrations calls)).
Proof.
  intros Hrange Hroom.
  split; [by apply perform_all_ids|by apply perform_all_next_id].
Qed.

(** X7.  The registry never holds more entries than it held at the start
    plus one for each [Register] call since. *)
Theorem registry_size_bound calls r :
  (size (callback_callers_ (perform_all calls r).2) ≤
   size (callback_callers_ r) + registrations calls)%nat.
Proof.
  revert r. induction calls as [|[bv_factory callback|id] calls IH];
    intros r.
  - simpl. lia.
  - rewrite perform_all_cons. etrans; [apply IH|].
    simpl. rewrite map_size_insert.
    destruct (callback_callers_ r !! next_id_ r); simpl; lia.
  - rewrite perform_all_cons. etrans; [apply IH|].
    simpl. rewrite map_size_delete.
    destruct (callback_callers_ r !! id); simpl; lia.
Qed.

(** X8.  In a registry that started empty and whose counter has not
    wrapped around, the lookup is present only for identifiers that were
    issued: those from the first identifier up to, and not including, the
    first identifier plus the number of registrations. *)
Theorem only_issued_ids_resolve (first_id : Z) calls i :
  uint64 first_id →
  first_id + Z.of_nat (registrations calls) ≤ UINT64_MAX + 1 →
  is_Some (Get i (perform_all calls
                    (JSCallbackCallerRegistry_new first_id)).2).1 →
  first_id ≤ i < first_id + Z.of_nat (registrations calls).
Proof.
  intros Hrange Hroom. rewrite Get_lookup, perform_all_lookup.
  simpl callback_callers_ at 1. rewrite lookup_empty.
  intros (before & caller & after & Hlog & _)%replay_registered.
  apply elem_of_seqZ.
  pose proof (perform_all_ids calls
                (JSCallbackCallerRegistry_new first_id : Registry)
                Hrange Hroom) as Hids.
  cbn [next_id_ JSCallbackCallerRegistry_new] in Hids. rewrite <- Hids.
  apply (registered_ids_elem _ _ caller). rewrite Hlog.
  apply elem_of_app. right. left.
Qed.

(** X9.  While a maker is alive its caller stays in the registry under
    its identifier, through any later calls of the registry that do not
    unregister that identifier and during which the counter does not wrap
    around; a call of a function it minted then reaches its callback. *)
Theorem stays_registered_while_alive (context_holder : ContextHolder)
    (bv_factory : Factory) (callback : Callback) p0 maker p1 calls :
  let c := JSCallbackCallerHolder_Get (callback_caller_holder_ maker) in
  let r := (perform_all calls (singleton_ p1)).2 in
  uint64 (next_id_ (singleton_ p0)) →
  JSCallbackMaker_new context_holder bv_factory callback p0 =
    Normal maker p1 →
  CallUnregister c ∉ calls →
  next_id_ (singleton_ p0) + 1 + Z.of_nat (registrations calls)
    ≤ UINT64_MAX + 1 →
  (Get c r).1 = Some {| bv_factory_ := bv_factory; callback_ := callback |} ∧
  ∀ (k : Z) (isolate' : Isolate) (args : list Value) (h : list HostCall),
    uint64 k →
    Call isolate' (VFunction (MakeJSCallback_data maker k)) args
      {| singleton_ := r; host_calls := h |} =
    Normal VUndefined
      {| singleton_ := r;
         host_calls :=
           h ++ [ {| called := callback;
                     called_callback_id := k;
                     called_args :=
                       New bv_factory (GetCurrentContext isolate')
                         (VArray (Some <$> args)) |} ] |}.
Proof.
  intros c r Hrange Hnew Hkept Hroom.
  rewrite JSCallbackMaker_new_Normal in Hnew. injection Hnew as <- <-.
  subst c r. cbn [callback_caller_holder_ callback_caller_id_
                  JSCallbackCallerHolder_Get singleton_] in *.
  remember (next_id_ (singleton_ p0)) as n eqn:Hn.
  pose proof (wrap64_range (n + 1)) as Hnext. unfold uint64 in Hnext, Hrange.
  assert (wrap64 (n + 1) + Z.of_nat (registrations calls) ≤ UINT64_MAX + 1 ∧
          (registrations calls ≠ 0%nat → wrap64 (n + 1) = n + 1))
    as [Hroom' Hsucc].
  { destruct (registrations calls) as [|m]; [split; [lia|done]|].
    rewrite wrap64_succ by lia. split; [lia|done]. }
  assert (callback_callers_
            (perform_all calls
               (Register bv_factory callback (singleton_ p0)).2).2 !! n =
          Some {| bv_factory_ := bv_factory; callback_ := callback |})
    as Hpresent.
  { rewrite perform_all_lookup.
    replace (callback_callers_
               (Register bv_factory callback (singleton_ p0)).2 !! n)
      with (Some {| bv_factory_ := bv_factory; callback_ := callback |})
      by (subst n; simpl; by rewrite lookup_insert_eq).
    apply replay_untouched; [by apply perform_all_no_Unregistered|].
    intros caller' Hin%registered_ids_elem.
    rewrite perform_all_ids in Hin;
      [|simpl next_id_; by rewrite <- Hn..].
    simpl next_id_ in Hin. rewrite <- Hn in Hin.
    apply elem_of_seqZ in Hin.
    destruct (decide (registrations calls = 0%nat)) as [Hzero|Hpos].
    - rewrite Hzero in Hin. lia.
    - rewrite (Hsucc Hpos) in Hin. lia. }
  unfold Register in Hpresent. cbn [snd] in Hpresent.
  rewrite <- Hn in Hpresent.
  split; [by rewrite Get_lookup|].
  intros k isolate' args h Hk. unfold Call, mbind, M_bind.
  rewrite OnCalledStatic_minted
    by (try done; simpl; unfold uint64; lia).
  cbn [callback_caller_holder_ callback_caller_id_ singleton_].
  by rewrite Hpresent.
Qed.

(** *** Several makers, several calls *)

Lemma wrap64_succ_ne (n : Z) : uint64 n → wrap64 (n + 1) ≠ n.
Proof.
  unfold uint64. intros Hn.
  destruct (decide (n = UINT64_MAX)) as [->|Hne].
  - rewrite wrap64_max. unfold UINT64_MAX. lia.
  - rewrite wrap64_succ by lia. lia.
Qed.

Lemma Call_minted maker (k : Z) (isolate : Isolate) (args : list Value) p :
  let c := callback_caller_id_ (callback_caller_holder_ maker) in
  uint64 c → uint64 k →
  Call isolate (VFunction (MakeJSCallback_data maker k)) args p =
  match callback_callers_ (singleton_ p) !! c with
  | None => Normal VUndefined p
  | Some caller =>
      Normal VUndefined
        (after_callback p caller (GetCurrentContext isolate) k args)
  end.
Proof.
  intros c Hc Hk. unfold Call, mbind, M_bind.
  rewrite OnCalledStatic_minted by done. fold c.
  by destruct (callback_callers_ (singleton_ p) !! c).
Qed.

(** X4.  Two makers constructed one after the other are independent: a
    function of each reaches the callback of its own maker; once one of
    the two makers is destroyed, calls of its function do nothing, and the
    function of the other maker still reaches that maker's callback. *)
Theorem two_makers_isolated (holderA holderB : ContextHolder)
    (factoryA factoryB : Factory) (callbackA callbackB : Callback)
    p0 makerA p1 makerB p2 (kA kB : Z) (isolate : Isolate)
    (args : list Value) :
  let fA := VFunction (MakeJSCallback_data makerA kA) in
  let fB := VFunction (MakeJSCallback_data makerB kB) in
  let callerA := {| bv_factory_ := factoryA; callback_ := callbackA |} in
  let callerB := {| bv_factory_ := factoryB; callback_ := callbackB |} in
  let context := GetCurrentContext isolate in
  uint64 (next_id_ (singleton_ p0)) → uint64 kA → uint64 kB →
  JSCallbackMaker_new holderA factoryA callbackA p0 = Normal makerA p1 →
  JSCallbackMaker_new holderB factoryB callbackB p1 = Normal makerB p2 →
  Call isolate fA args p2 =
    Normal VUndefined (after_callback p2 callerA context kA args) ∧
  Call isolate fB args p2 =
    Normal VUndefined (after_callback p2 callerB context kB args) ∧
  (∀ p3, JSCallbackMaker_delete makerA p2 = Normal tt p3 →
         Call isolate fA args p3 = Normal VUndefined p3 ∧
         Call isolate fB args p3 =
           Normal VUndefined (after_callback p3 callerB context kB args)) ∧
  (∀ p3, JSCallbackMaker_delete makerB p2 = Normal tt p3 →
         Call isolate fB args p3 = Normal VUndefined p3 ∧
         Call isolate fA args p3 =
           Normal VUndefined (after_callback p3 callerA context kA args)).
Proof.
  intros fA fB callerA callerB context Hrange HkA HkB HnewA HnewB.
  rewrite JSCallbackMaker_new_Normal in HnewA. injection HnewA as <- <-.
  rewrite JSCallbackMaker_new_Normal in HnewB. injection HnewB as <- <-.
  subst fA fB. cbn [singleton_ Register snd next_id_ callback_callers_].
  remember (next_id_ (singleton_ p0)) as a eqn:Ha.
  remember (wrap64 (a + 1)) as b eqn:Hb.
  assert (b ≠ a) as Hab by (subst b; by apply wrap64_succ_ne).
  assert (uint64 b) as Hrange' by (subst b; apply wrap64_range).
  split; [|split; [|split]].
  - rewrite Call_minted by done. simpl.
    by rewrite lookup_insert_ne, lookup_insert_eq.
  - rewrite Call_minted by done. simpl. by rewrite lookup_insert_eq.
  - intros p3. rewrite JSCallbackMaker_delete_Normal. intros [= <-].
    rewrite !Call_minted by done. simpl.
    rewrite lookup_delete_eq.
    by rewrite lookup_delete_ne, lookup_insert_eq.
  - intros p3. rewrite JSCallbackMaker_delete_Normal. intros [= <-].
    rewrite !Call_minted by done. simpl.
    rewrite lookup_delete_eq.
    by rewrite lookup_delete_ne, lookup_insert_ne, lookup_insert_eq.
Qed.

Lemma Register_each_outside (callers : list (Factory * Callback)) r j :
  uint64 (next_id_ r) →
  next_id_ r + Z.of_nat (length callers) ≤ UINT64_MAX + 1 →
  ¬ (next_id_ r ≤ j < next_id_ r + Z.of_nat (length callers)) →
  callback_callers_ (Register_each callers r).2 !! j =
  callback_callers_ r !! j.
Proof.
  revert r. induction callers as [|[bv_factory callback] callers IH];
    intros r Hrange Hroom Hout; [done|].
  rewrite Register_each_state. cbn [length] in *.
  pose proof (wrap64_range (next_id_ r + 1)) as Hnext.
  unfold uint64 in Hrange, Hnext.
  rewrite IH.
  - simpl. rewrite lookup_insert_ne; [done|lia].
  - done.
  - simpl. destruct callers as [|next callers]; [simpl; lia|].
    rewrite wrap64_succ; cbn [length] in *; lia.
  - simpl. destruct callers as [|next callers]; [simpl; lia|].
    rewrite wrap64_succ; cbn [length] in *; lia.
Qed.

(** X10.  After N sequential [Register] calls during which the counter
    does not pass its largest value, the n-th identifier handed out
    resolves to the caller made from the n-th pair of arguments, and the
    entry of every key outside the N identifiers is as before. *)
Theorem Register_each_entries (callers : list (Factory * Callback)) r :
  uint64 (next_id_ r) →
  next_id_ r + Z.of_nat (length callers) ≤ UINT64_MAX + 1 →
  (∀ (n : nat) (bv_factory : Factory) (callback : Callback),
     callers !! n = Some (bv_factory, callback) →
     (Get (next_id_ r + Z.of_nat n) (Register_each callers r).2).1 =
     Some {| bv_factory_ := bv_factory; callback_ := callback |}) ∧
  (∀ j, ¬ (next_id_ r ≤ j < next_id_ r + Z.of_nat (length callers)) →
     (Get j (Register_each callers r).2).1 = (Get j r).1).
Proof.
  intros Hrange Hroom. split.
  - revert r Hrange Hroom.
    induction callers as [|[bv_factory0 callback0] callers IH];
      intros r Hrange Hroom n bv_factory callback Hn; [done|].
    rewrite Get_lookup, Register_each_state. cbn [length] in Hroom.
    pose proof (wrap64_range (next_id_ r + 1)) as Hnext.
    unfold uint64 in Hrange, Hnext.
    assert (callers ≠ [] → wrap64 (next_id_ r + 1) = next_id_ r + 1)
      as Hsucc.
    { destruct callers; [done|]. intros _.
      rewrite wrap64_succ; cbn [length] in *; lia. }
    assert (next_id_ (Register bv_factory0 callback0 r).2
              + Z.of_nat (length callers) ≤ UINT64_MAX + 1) as Hroom'.
    { simpl. destruct callers as [|next callers]; [simpl; lia|].
      rewrite Hsucc by done. cbn [length] in *. lia. }
    destruct n as [|n].
    + injection Hn as <- <-. rewrite Z.add_0_r.
      rewrite Register_each_outside; [|done|done|].
      * simpl. by rewrite lookup_insert_eq.
      * simpl. destruct callers as [|next callers]; [simpl; lia|].
        rewrite Hsucc by done. lia.
    + simpl in Hn.
      assert (callers ≠ []) as Hne by (by destruct callers).
      specialize (IH (Register bv_factory0 callback0 r).2
                    ltac:(done) Hroom' n bv_factory callback Hn).
      rewrite Get_lookup in IH. simpl next_id_ in IH.
      rewrite Hsucc in IH by done.
      by replace (next_id_ r + Z.of_nat (S n))
        with (next_id_ r + 1 + Z.of_nat n) by lia.
  - intros j Hout. rewrite !Get_lookup. by apply Register_each_outside.
Qed.

(** *** After the destructor *)




End Composition.


(** ** The compositions on the concrete host *)





(** A maker made and destroyed when the counter is 3 and key 1 is in
    use. *)
Lemma new_then_delete_restores_witness :
  (JSCallbackMaker_new Sample.context_holder Sample.factory 2%nat
     ≫= JSCallbackMaker_delete)
    (Sample.process 3 [(1, Sample.caller 1%nat)]) =
  Normal tt (Sample.process 4 [(1, Sample.caller 1%nat)]).
Proof.
  apply (new_then_delete_restores Sample.context_holder Sample.factory 2%nat
           (Sample.process 3 [(1, Sample.caller 1%nat)])).
  reflexivity.
Defined.

(** Key 1 unregistered before or after the registration that returns 3. *)
Lemma Register_Unregister_commute_witness :
  Unregister 1
    (Register Sample.factory 2%nat
       (Sample.registry 3 [(1, Sample.caller 1%nat)])).2 =
  (Register Sample.factory 2%nat
     (Unregister 1 (Sample.registry 3 [(1, Sample.caller 1%nat)]))).2.
Proof.
  apply (Register_Unregister_commute Sample.factory 2%nat
           (Sample.registry 3 [(1, Sample.caller 1%nat)]) 1).
  simpl. lia.
Defined.

(** Makers 3 and 4; maker 3 is destroyed: its function is ignored, the
    function of maker 4 reaches callback 6. *)
Lemma two_makers_isolated_witness :
  Call Sample.isolate
    (VFunction (VArray [Some (VBigInt 3); Some (VBigInt 7)])) [VNull]
    (Sample.process 5 [(4, Sample.caller 6%nat)]) =
  Normal VUndefined (Sample.process 5 [(4, Sample.caller 6%nat)]) ∧
  Call Sample.isolate
    (VFunction (VArray [Some (VBigInt 4); Some (VBigInt 8)])) [VNull]
    (Sample.process 5 [(4, Sample.caller 6%nat)]) =
  Normal VUndefined
    {| singleton_ := Sample.registry 5 [(4, Sample.caller 6%nat)];
       host_calls :=
         [ {| called := 6%nat;
              called_callback_id := 8;
              called_args := (1%N, VArray [Some VNull]) |} ] |}.
Proof.
  pose proof (two_makers_isolated
                Sample.context_holder Sample.context_holder
                Sample.factory Sample.factory 5%nat 6%nat
                (Sample.process 3 []) (Sample.maker 3)
                (Sample.process 4 [(3, Sample.caller 5%nat)])
                (Sample.maker 4)
                (Sample.process 5
                   [(3, Sample.caller 5%nat); (4, Sample.caller 6%nat)])
                7 8 Sample.isolate [VNull]) as Htwo.
  cbv zeta in Htwo.
  destruct Htwo as (_ & _ & HdeleteA & _).
  - apply uint64_small. simpl. lia.
  - apply uint64_small. lia.
  - apply uint64_small. lia.
  - reflexivity.
  - reflexivity.
  - apply (HdeleteA (Sample.process 5 [(4, Sample.caller 6%nat)])).
    reflexivity.
Defined.

(** Two registrations with an [Unregister] between them, from counter 5. *)
Lemma interleaved_ids_consecutive_witness :
  registered_ids
    (perform_all
       [CallRegister Sample.factory 1%nat; CallUnregister 5;
        CallRegister Sample.factory 2%nat]
       (Sample.registry 5 [])).1 = [5; 6].
Proof.
  apply (interleaved_ids_consecutive
           [CallRegister Sample.factory 1%nat; CallUnregister 5;
            CallRegister Sample.factory 2%nat]
           (Sample.registry 5 [])).
  - apply uint64_small. simpl. lia.
  - unfold UINT64_MAX. simpl. lia.
Defined.

(** One registration from the first identifier 5: identifier 5 resolves,
    and it is in the issued range. *)
Lemma only_issued_ids_resolve_witness :
  5 ≤ 5 <
  5 + Z.of_nat (registrations [CallRegister Sample.factory 1%nat]).
Proof.
  apply (only_issued_ids_resolve 5 [CallRegister Sample.factory 1%nat] 5).
  - apply uint64_small. lia.
  - unfold UINT64_MAX. simpl. lia.
  - exists (Sample.caller 1%nat). reflexivity.
Defined.

(** Maker 3 outlives another maker, made and destroyed after it. *)
Lemma stays_registered_while_alive_witness :
  (Get 3
     (perform_all [CallRegister Sample.factory 6%nat; CallUnregister 4]
        (Sample.registry 4 [(3, Sample.caller 5%nat)])).2).1 =
  Some (Sample.caller 5%nat).
Proof.
  pose proof (stays_registered_while_alive
                Sample.context_holder Sample.factory 5%nat
                (Sample.process 3 []) (Sample.maker 3)
                (Sample.process 4 [(3, Sample.caller 5%nat)])
                [CallRegister Sample.factory 6%nat; CallUnregister 4])
    as Halive.
  cbv zeta in Halive.
  destruct Halive as [Hget _].
  - apply uint64_small. simpl. lia.
  - reflexivity.
  - rewrite !elem_of_cons, elem_of_nil.
    intros [Hin|[Hin|Hin]]; [discriminate|discriminate|done].
  - unfold UINT64_MAX. simpl. lia.
  - exact Hget.
Defined.

(** Two registrations from counter 5: the second identifier, 6, resolves
    to the second caller. *)
Lemma Register_each_entries_witness :
  (Get (5 + Z.of_nat 1)
     (Register_each [(Sample.factory, 1%nat); (Sample.factory, 2%nat)]
        (Sample.registry 5 [])).2).1 =
  Some (Sample.caller 2%nat).
Proof.
  destruct (Register_each_entries
              [(Sample.factory, 1%nat); (Sample.factory, 2%nat)]
              (Sample.registry 5 [])) as [Hinside _].
  - apply uint64_small. simpl. lia.
  - unfold UINT64_MAX. simpl. lia.
  - apply (Hinside 1%nat Sample.factory 2%nat). reflexivity.
Defined.
